(** * DataManipulator: the quote-pair pipeline of [src/DataManipulator.ts]

    A shallow embedding of the class [DataManipulator] and the properties of
    its pipeline: mid-price, ratio, bounded moving-average window, signal
    classification and row assembly.

    JavaScript numbers are IEEE-754 binary64 values; they are modelled by
    Rocq's primitive [float], whose operations are the same binary64
    operations (specified by [FloatAxioms] against [SpecFloat]).  The static
    field [movingAverageQueue] and the console are threaded explicitly as the
    state of a small state-and-exception monad. *)

From Stdlib Require Import ZArith List Bool Lia String.
From Stdlib Require Import Uint63 Floats.
Import ListNotations.

Set Warnings "-inexact-float".

(** ** JavaScript values used by the class *)

(** [number]: an IEEE-754 double. *)
Definition number : Type := float.
Bind Scope float_scope with number.

Module Number.

(** The relational operators [>] and [<] on numbers; both are [false] as
    soon as an operand is NaN. *)
Definition gt (x y : number) : bool := PrimFloat.ltb y x.
Definition lt (x y : number) : bool := PrimFloat.ltb x y.

(** [==] on numbers: NaN differs from itself, [+0 == -0]. *)
Definition eq (x y : number) : bool := PrimFloat.eqb x y.

(** [Number.isFinite]. *)
Definition isFinite (x : number) : bool := PrimFloat.is_finite x.

(** The length of an array as a number.  Array lengths are below [2^32],
    where the conversion from an integer is exact. *)
Definition of_length (n : nat) : number :=
  PrimFloat.of_uint63 (Uint63.of_Z (Z.of_nat n)).

(** The doubles 1 and 10 as specification floats: [2^52 * 2^-52] and
    [5 * 2^50 * 2^-49]. *)
Definition SF_one : spec_float :=
  S754_finite false 4503599627370496 (-52)%Z.

Definition SF_ten : spec_float :=
  S754_finite false 5629499534213120 (-49)%Z.

(** A short significand: the number is a zero, an infinity, NaN, or a finite
    double of magnitude below [2^1020] whose mantissa ends in four zero bits
    (it has at most 49 significant bits). *)
Definition SFshort (x : spec_float) : bool :=
  match x with
  | S754_finite _ m e => ((Zpos m mod 16 =? 0) && (e <=? 967))%Z
  | _ => true
  end.

Definition short_significand (x : number) : bool := SFshort (Prim2SF x).

End Number.

(** [Date]: a time value in milliseconds since the epoch, or the invalid date
    (time value NaN).  Two dates compared with [>] are compared by time value,
    and a comparison with NaN is [false]. *)
Inductive Date : Type :=
| ValidDate (ms : Z)
| InvalidDate.

Definition Date_gt (a b : Date) : bool :=
  match a, b with
  | ValidDate x, ValidDate y => (x >? y)%Z
  | _, _ => false
  end.

(** Modelled from the spec: the interfaces [Order] and [ServerRespond] are
    declared in [./DataStreamer], which is not among the sources; the fields
    below are the ones [DataManipulator] reads (a Quote carries an ask price,
    a bid price and a timestamp). *)
Record Order : Type := { price : number }.

Record ServerRespond : Type := {
  top_ask : Order;
  top_bid : Order;
  timestamp : Date
}.

Inductive Signal : Type := BUY | SELL | HOLD.

(** [interface Row]; [undefined] in the two optional fields is [None]. *)
Record Row : Type := {
  price_abc : number;
  price_def : number;
  ratio : number;
  row_timestamp : Date;
  upper_bound : number;
  lower_bound : number;
  trigger_alert : option number;
  moving_average : number;
  signal : option Signal
}.

(** ** Effects: static state, exceptions *)

(** The only exception the code can raise is the [TypeError] of the runtime:
    reading a property of [undefined], or [reduce] of an empty array with no
    initial value.  The class itself has no [throw]. *)
Inductive exn : Type := TypeError.

Inductive outcome (A : Type) : Type :=
| Return (a : A)
| Throw (e : exn).
Arguments Return {A} a.
Arguments Throw {A} e.

(** The mutable state the class touches: its static queue, and the console. *)
Record Static : Type := {
  movingAverageQueue : list number;
  console : list string
}.

Definition initial : Static :=
  {| movingAverageQueue := []; console := [] |}.

(** A computation may change the state before it throws. *)
Definition M (A : Type) : Type := Static -> outcome A * Static.

Definition ret {A} (a : A) : M A := fun s => (Return a, s).

Definition bind {A B} (m : M A) (k : A -> M B) : M B :=
  fun s => match m s with
           | (Return a, s') => k a s'
           | (Throw e, s') => (Throw e, s')
           end.

Definition lift {A} (o : outcome A) : M A := fun s => (o, s).

Definition getQueue : M (list number) :=
  fun s => (Return (movingAverageQueue s), s).

Definition setQueue (q : list number) : M unit :=
  fun s => (Return tt, {| movingAverageQueue := q; console := console s |}).

Definition console_log (line : string) : M unit :=
  fun s => (Return tt, {| movingAverageQueue := movingAverageQueue s;
                          console := console s ++ [line] |}).

Declare Scope js_scope.
Delimit Scope js_scope with js.
Notation "x <- m ;; k" := (bind m (fun x => k))
  (at level 61, m at next level, right associativity) : js_scope.
Notation "m ;;; k" := (bind m (fun _ => k))
  (at level 61, right associativity) : js_scope.
Open Scope js_scope.

(** ** Array primitives *)

(** [a.shift()]: drops the first element (nothing to drop when empty). *)
Definition shift (q : list number) : list number := tl q.

(** [a.reduce(f)] with no initial value: the first element seeds the
    accumulator; on an empty array it throws a [TypeError]. *)
Definition reduce (f : number -> number -> number) (q : list number)
  : outcome number :=
  match q with
  | [] => Throw TypeError
  | x :: xs => Return (fold_left f xs x)
  end.

(** ** The class [DataManipulator] *)

Definition MOVING_AVERAGE_WINDOW : nat := 10.
Definition THRESHOLD : number := 0.05%float.

(** [calculateMidPrice(data)].  The argument is an array element, hence
    [undefined] ([None]) when the index was out of range; reading
    [data.top_ask] then throws. *)
Definition calculateMidPrice (data : option ServerRespond) : outcome number :=
  match data with
  | None => Throw TypeError
  | Some d => Return ((price (top_ask d) + price (top_bid d)) / 2)%float
  end.

(** [getLatestTimestamp(serverResponds)]. *)
Definition getLatestTimestamp (serverResponds : list ServerRespond)
  : outcome Date :=
  match nth_error serverResponds 0, nth_error serverResponds 1 with
  | Some r0, Some r1 =>
      Return (if Date_gt (timestamp r0) (timestamp r1)
              then timestamp r0 else timestamp r1)
  | _, _ => Throw TypeError
  end.

(** [updateMovingAverage(ratio)]. *)
Definition updateMovingAverage (ratio : number) : M number :=
  q <- getQueue ;;
  setQueue (q ++ [ratio]) ;;;
  q1 <- getQueue ;;
  (if (MOVING_AVERAGE_WINDOW <? List.length q1)%nat
   then setQueue (shift q1)
   else ret tt) ;;;
  q2 <- getQueue ;;
  total <- lift (reduce PrimFloat.add q2) ;;
  ret (total / Number.of_length (List.length q2))%float.

(** [generateSignal(ratio, movingAverage, upperBound, lowerBound)]. *)
Definition generateSignal (ratio movingAverage upperBound lowerBound : number)
  : option Signal :=
  if Number.gt ratio upperBound && Number.gt ratio movingAverage then
    Some SELL
  else if Number.lt ratio lowerBound && Number.lt ratio movingAverage then
    Some BUY
  else if Number.gt ratio upperBound || Number.lt ratio lowerBound then
    Some HOLD
  else None.

(** The text a template literal gives for the signal. *)
Definition show_signal (s : option Signal) : string :=
  match s with
  | Some BUY => "BUY"
  | Some SELL => "SELL"
  | Some HOLD => "HOLD"
  | None => "undefined"
  end.

(** [generateRow(serverResponds)]. *)
Definition generateRow (serverResponds : list ServerRespond) : M Row :=
  priceABC <- lift (calculateMidPrice (nth_error serverResponds 0)) ;;
  priceDEF <- lift (calculateMidPrice (nth_error serverResponds 1)) ;;
  let ratio := (priceABC / priceDEF)%float in
  movingAverage <- updateMovingAverage ratio ;;
  let upperBound := (1 + THRESHOLD)%float in
  let lowerBound := (1 - THRESHOLD)%float in
  let signal := generateSignal ratio movingAverage upperBound lowerBound in
  console_log ("Generated Signal: " ++ show_signal signal)%string ;;;
  latest <- lift (getLatestTimestamp serverResponds) ;;
  ret {| price_abc := priceABC;
         price_def := priceDEF;
         ratio := ratio;
         row_timestamp := latest;
         upper_bound := upperBound;
         lower_bound := lowerBound;
         trigger_alert :=
           if Number.gt ratio upperBound || Number.lt ratio lowerBound
           then Some ratio else None;
         moving_average := movingAverage;
         signal := signal |}.

(** The state after a sequence of calls of [updateMovingAverage], whatever
    they returned. *)
Definition pushes (rs : list number) (s : Static) : Static :=
  fold_left (fun st r => snd (updateMovingAverage r st)) rs s.

Definition quote (ask bid : number) (t : Z) : ServerRespond :=
  {| top_ask := {| price := ask |};
     top_bid := {| price := bid |};
     timestamp := ValidDate t |}.

(** ** Vocabulary of the statements *)

(** The window a call of [updateMovingAverage] leaves: the new ratio is
    appended, and the oldest entry dropped when that exceeds the capacity. *)
Definition slide (q : list number) (r : number) : list number :=
  if (MOVING_AVERAGE_WINDOW <? List.length (q ++ [r]))%nat
  then shift (q ++ [r]) else q ++ [r].

(** The mid-price of a quote that is there. *)
Definition midPrice (d : ServerRespond) : number :=
  ((price (top_ask d) + price (top_bid d)) / 2)%float.

(** The breach condition of [generateRow] and of the third rule of
    [generateSignal]. *)
Definition breach (r upperBound lowerBound : number) : bool :=
  Number.gt r upperBound || Number.lt r lowerBound.

(** The last [n] elements of a list, in order. *)
Definition lastn {A} (n : nat) (l : list A) : list A :=
  skipn (List.length l - n) l.

(** The double 2 as a specification float: [2^52 * 2^-51]. *)
Definition SF_two : spec_float :=
  S754_finite false 4503599627370496 (-51)%Z.

(** The ratios a stream of calls of [generateRow] pushes: one for each
    array that holds a pair of quotes, none for a shorter array. *)
Definition ratios (batches : list (list ServerRespond)) : list number :=
  flat_map (fun qs => match qs with
                      | a :: b :: _ => [(midPrice a / midPrice b)%float]
                      | _ => []
                      end) batches.

(** The state after a stream of calls of [generateRow], one per array,
    whatever each returned or threw. *)
Definition process (batches : list (list ServerRespond)) (s : Static)
  : Static :=
  fold_left (fun st qs => snd (generateRow qs st)) batches s.

(** ** Facts on binary64 numbers

    Each fact is obtained on [spec_float], the specification the primitive
    operations are axiomatised against, and carried back with
    [Prim2SF_inj]. *)

Module NumberFacts.

Local Open Scope Z_scope.

Lemma Prim2SF_one : Prim2SF 1%float = Number.SF_one.
Proof. reflexivity. Qed.

Lemma Prim2SF_zero : Prim2SF 0%float = S754_zero false.
Proof. reflexivity. Qed.

(** *** Comparison *)

Lemma compare_cont_Eq_antisym (p q : positive) :
  Pos.compare_cont Eq q p = CompOpp (Pos.compare_cont Eq p q).
Proof. exact (Pos.compare_antisym p q). Qed.

Lemma SFcompare_antisym (x y : spec_float) :
  SFcompare y x = option_map CompOpp (SFcompare x y).
Proof.
  destruct x as [sx|sx| |sx mx ex], y as [sy|sy| |sy my ey]; simpl;
    try reflexivity;
    try (destruct sx; reflexivity);
    try (destruct sy; reflexivity);
    try (destruct sx, sy; reflexivity).
  destruct sx, sy; try reflexivity;
    rewrite (Z.compare_antisym ex ey), (compare_cont_Eq_antisym mx my);
    destruct (ex ?= ey); simpl; try reflexivity;
    destruct (Pos.compare_cont Eq mx my); reflexivity.
Qed.

Lemma SFeqb_not_ltb (x y : spec_float) :
  SFeqb x y = true -> SFltb x y = false /\ SFltb y x = false.
Proof.
  unfold SFeqb, SFltb. rewrite (SFcompare_antisym x y).
  destruct (SFcompare x y) as [[ | | ]|]; simpl; try discriminate; auto.
Qed.

(** A number [==] to a bound is neither [>] nor [<] that bound. *)
Lemma eq_not_gt_lt (x y : number) :
  Number.eq x y = true -> Number.gt x y = false /\ Number.lt x y = false.
Proof.
  unfold Number.eq, Number.gt, Number.lt.
  rewrite eqb_spec, !ltb_spec. intros H.
  destruct (SFeqb_not_ltb _ _ H); auto.
Qed.

(** [==] with a finite non-zero number is identity. *)
Lemma SFeqb_finite_eq (x : spec_float) s m e :
  SFeqb x (S754_finite s m e) = true -> x = S754_finite s m e.
Proof.
  unfold SFeqb.
  destruct x as [sx|sx| |sx mx ex]; simpl;
    try discriminate;
    try (destruct sx; discriminate);
    try (destruct s; discriminate).
  destruct sx, s; try discriminate;
    destruct (ex ?= e) eqn:He; try discriminate;
    apply Z.compare_eq in He; subst;
    destruct (Pos.compare_cont Eq mx m) eqn:Hm; try discriminate;
    apply Pos.compare_eq in Hm; subst; reflexivity.
Qed.

Lemma eq_finite_eq (x y : number) s m e :
  Prim2SF y = S754_finite s m e -> Number.eq x y = true -> x = y.
Proof.
  unfold Number.eq. rewrite eqb_spec. intros Hy H.
  apply Prim2SF_inj. rewrite Hy in *. now apply SFeqb_finite_eq.
Qed.

(** *** Division by zero *)



Lemma isFinite_spec (x : number) :
  Number.isFinite x =
  match Prim2SF x with
  | S754_nan | S754_infinity _ => false
  | _ => true
  end.
Proof.
  unfold Number.isFinite, is_finite, is_nan, is_infinity.
  rewrite !eqb_spec, abs_spec.
  change (Prim2SF infinity) with (S754_infinity false).
  destruct (Prim2SF x) as [s|s| |s m e]; try reflexivity.
  all: unfold SFeqb; simpl; destruct s; simpl;
    rewrite ?Z.compare_refl, ?Pos.compare_cont_refl; reflexivity.
Qed.


(** *** Division by one

    [x / 1] goes through the rounding of [SFdiv]: the quotient mantissa is
    [2 m] at exponent [e - 1] for a normal [x], and [m] itself for a
    subnormal one; in both cases rounding gives back [m] at [e]. *)

Lemma digits2_pos_pos p : 1 <= Zpos (digits2_pos p).
Proof. lia. Qed.

Lemma bounded_inv m e :
  bounded prec emax m e = true ->
  fexp prec emax (Zpos (digits2_pos m) + e) = e /\ e <= 971.
Proof.
  unfold bounded, canonical_mantissa. intros H.
  apply andb_true_iff in H. destruct H as [H1 H2].
  apply Z.eqb_eq in H1. apply Z.leb_le in H2.
  split; [exact H1 | exact H2].
Qed.

Lemma div_eucl_mul (a b : Z) : 0 < b -> Z.div_eucl (a * b) b = (a, 0).
Proof.
  intros Hb.
  pose proof (Z.div_mul a b ltac:(lia)) as Hq.
  pose proof (Z.mod_mul a b ltac:(lia)) as Hr.
  unfold Z.div, Z.modulo in Hq, Hr.
  destruct (Z.div_eucl (a * b) b) as [q r]. simpl in *. now subst.
Qed.

Lemma SFdiv_core_one (m : positive) (e : Z) :
  bounded prec emax m e = true ->
  SFdiv_core_binary prec emax (Zpos m) e 4503599627370496 (-52) =
  if -1020 <=? Zpos (digits2_pos m) + e
  then (Zpos m~0, e - 1, loc_Exact)
  else (Zpos m, e, loc_Exact).
Proof.
  intros Hb. apply bounded_inv in Hb. destruct Hb as [Hc He].
  unfold SFdiv_core_binary.
  change (Zdigits2 4503599627370496) with 53.
  change (Zdigits2 (Zpos m)) with (Zpos (digits2_pos m)).
  pose proof (digits2_pos_pos m) as Hd.
  set (d := Zpos (digits2_pos m)) in *.
  unfold fexp, SpecFloat.emin, prec, emax in *.
  destruct (-1020 <=? d + e) eqn:Hcase.
  - apply Z.leb_le in Hcase.
    assert (Hd53 : d = 53) by lia.
    replace (Z.min (Z.max (d + e - (53 + -52) - 53) (3 - 1024 - 53)) (e - -52))
      with (e - 1) by lia.
    replace (e - -52 - (e - 1)) with 53 by lia.
    rewrite Z.shiftl_mul_pow2 by lia.
    replace (Zpos m * 2 ^ 53) with (Zpos m~0 * 4503599627370496) by
      (change (2 ^ 53) with (2 * 4503599627370496); lia).
    rewrite div_eucl_mul by lia. reflexivity.
  - apply Z.leb_gt in Hcase.
    assert (He' : e = -1074) by lia.
    replace (Z.min (Z.max (d + e - (53 + -52) - 53) (3 - 1024 - 53)) (e - -52))
      with e by lia.
    replace (e - -52 - e) with 52 by lia.
    rewrite Z.shiftl_mul_pow2 by lia.
    change (2 ^ 52) with 4503599627370496.
    rewrite div_eucl_mul by lia. reflexivity.
Qed.

Lemma binary_round_aux_canonical s (m : positive) (e : Z) :
  bounded prec emax m e = true ->
  binary_round_aux prec emax s (Zpos m) e loc_Exact = S754_finite s m e.
Proof.
  intros Hb. apply bounded_inv in Hb. destruct Hb as [Hc He].
  unfold binary_round_aux, shr_fexp.
  change (Zdigits2 (Zpos m)) with (Zpos (digits2_pos m)).
  rewrite Hc, Z.sub_diag.
  cbn [shr shr_record_of_loc round_nearest_even shr_m loc_of_shr_record Zdigits2].
  rewrite Hc, Z.sub_diag.
  cbn [shr shr_m].
  apply Z.leb_le in He. change (emax - prec) with 971. now rewrite He.
Qed.

Lemma binary_round_aux_double s (m : positive) (e : Z) :
  bounded prec emax m e = true ->
  -1020 <= Zpos (digits2_pos m) + e ->
  binary_round_aux prec emax s (Zpos m~0) (e - 1) loc_Exact = S754_finite s m e.
Proof.
  intros Hb Hn. pose proof (bounded_inv _ _ Hb) as [Hc He].
  unfold binary_round_aux, shr_fexp.
  change (Zdigits2 (Zpos m~0)) with (Zpos (Pos.succ (digits2_pos m))).
  replace (fexp prec emax (Zpos (Pos.succ (digits2_pos m)) + (e - 1)) - (e - 1))
    with 1 by (rewrite Pos2Z.inj_succ; unfold fexp, SpecFloat.emin, prec, emax in *; lia).
  cbn [shr shr_record_of_loc iter_pos shr_1 round_nearest_even shr_m
       loc_of_shr_record orb Zdigits2].
  replace (e - 1 + 1) with e by lia.
  rewrite Hc, Z.sub_diag.
  cbn [shr shr_m].
  apply Z.leb_le in He. change (emax - prec) with 971. now rewrite He.
Qed.

Lemma SFdiv_one (x : spec_float) :
  valid_binary x = true -> SF64div x Number.SF_one = x.
Proof.
  destruct x as [s|s| |s m e]; intros Hv; simpl in Hv.
  - simpl. now rewrite xorb_false_r.
  - simpl. now rewrite xorb_false_r.
  - reflexivity.
  - unfold SF64div, SFdiv, Number.SF_one.
    rewrite (SFdiv_core_one m e Hv), xorb_false_r.
    destruct (-1020 <=? Zpos (digits2_pos m) + e) eqn:Hcase.
    + apply Z.leb_le in Hcase. now apply binary_round_aux_double.
    + now apply binary_round_aux_canonical.
Qed.

(** Dividing by 1 is exact, on every double (NaN and infinities included). *)
Lemma div_one (x : number) : (x / 1)%float = x.
Proof.
  apply Prim2SF_inj. rewrite div_spec.
  rewrite Prim2SF_one.
  apply SFdiv_one, Prim2SF_valid.
Qed.

(** *** Sums of ten copies

    With four spare bits at the end of the mantissa, each of the multiples
    [2 x], ..., [10 x] fits in 53 bits: the additions round nothing, and
    the final division by 10 is exact. *)

Lemma bounded_intro m e :
  fexp prec emax (Zpos (digits2_pos m) + e) = e -> e <= 971 ->
  bounded prec emax m e = true.
Proof.
  intros H1 H2. unfold bounded, canonical_mantissa.
  apply andb_true_iff. split; [now apply Z.eqb_eq | now apply Z.leb_le].
Qed.

Lemma digits2_pos_size p : digits2_pos p = Pos.size p.
Proof. induction p; simpl; congruence. Qed.

Lemma digits_log2 p : Zpos (digits2_pos p) = Z.log2 (Zpos p) + 1.
Proof.
  rewrite digits2_pos_size.
  destruct p; simpl; try reflexivity; rewrite Pos2Z.inj_succ; lia.
Qed.

Lemma digits_multiple (k m : positive) :
  Zpos k < 16 ->
  Zpos (digits2_pos m) <= Zpos (digits2_pos (k * m)) <= Zpos (digits2_pos m) + 4.
Proof.
  intros Hk. rewrite !digits_log2.
  assert (H1 : Z.log2 (Zpos m) <= Z.log2 (Zpos (k * m)))
    by (apply Z.log2_le_mono; nia).
  assert (H2 : Z.log2 (Zpos (k * m)) <= Z.log2 (Zpos m * 2 ^ 4))
    by (apply Z.log2_le_mono; change (2 ^ 4) with 16; nia).
  rewrite Z.log2_mul_pow2 in H2 by lia. lia.
Qed.

Lemma digits_xO p : Zpos (digits2_pos p~0) = Zpos (digits2_pos p) + 1.
Proof. cbn [digits2_pos]. lia. Qed.

Local Ltac exact_shift M j pw :=
  match goal with
  | E := fexp _ _ (Zpos (digits2_pos ?N) + ?e),
    HD : Zpos (digits2_pos ?N) = _, Hmaxb : (_ <=? 971) = true |- _ =>
    exists M;
    replace (E - e) with j by lia;
    unfold N;
    cbn [shr shr_record_of_loc iter_pos shr_1 round_nearest_even shr_m
         loc_of_shr_record orb Zdigits2];
    replace (fexp prec emax (Zpos (digits2_pos M) + (e + j)))
      with E by (unfold E; f_equal; rewrite HD, ?digits_xO; lia);
    replace (E - (e + j)) with 0 by lia; cbn [shr shr_m];
    replace (e + j) with E by lia; change (emax - prec) with 971;
    rewrite Hmaxb;
    split; [reflexivity|]; split; [change (2 ^ j) with pw; lia|];
    apply bounded_intro; [|lia];
    replace (Zpos (digits2_pos M) + E) with (Zpos (digits2_pos N) + e)
      by (rewrite HD, ?digits_xO; lia);
    reflexivity
  end.

(** Rounding a mantissa that ends in four zero bits, when at most four bits
    have to go, is exact. *)
Lemma binary_round_exact s (n : positive) (e : Z) :
  let N := (n~0~0~0~0)%positive in
  let E := fexp prec emax (Zpos (digits2_pos N) + e) in
  e <= E <= e + 4 -> E <= 971 ->
  exists M,
    binary_round prec emax s N e = S754_finite s M E /\
    Zpos M * 2 ^ (E - e) = Zpos N /\
    bounded prec emax M E = true.
Proof.
  intros N E HE Hmax.
  assert (Hcases : E = e \/ E = e + 1 \/ E = e + 2 \/ E = e + 3 \/ E = e + 4)
    by lia.
  unfold binary_round. fold E.
  assert (Hal : shl_align N e E = (N, e)).
  { unfold shl_align. destruct (E - e) eqn:D; try reflexivity. lia. }
  rewrite Hal. unfold binary_round_aux, shr_fexp.
  change (Zdigits2 (Zpos N)) with (Zpos (digits2_pos N)). fold E.
  pose proof Hmax as Hmaxb. apply Z.leb_le in Hmaxb.
  assert (HD : Zpos (digits2_pos N) = Zpos (digits2_pos n) + 4)
    by (unfold N; rewrite !digits_xO; lia).
  destruct Hcases as [H|[H|[H|[H|H]]]].
  - exists N.
    replace (E - e) with 0 by lia.
    cbn [shr shr_record_of_loc round_nearest_even shr_m loc_of_shr_record
         Zdigits2].
    fold E. replace (E - e) with 0 by lia. cbn [shr shr_m].
    replace e with E at 1 by lia. change (emax - prec) with 971.
    rewrite Hmaxb. replace e with E at 1 by lia.
    split; [reflexivity|]. split; [change (2 ^ 0) with 1; lia|].
    apply bounded_intro; [|lia]. replace E with e at 1 by lia. fold E. lia.
  - exact_shift (n~0~0~0)%positive 1 2.
  - exact_shift (n~0~0)%positive 2 4.
  - exact_shift (n~0)%positive 3 8.
  - exact_shift n 4 16.
Qed.

Lemma shl_align_fst (M : positive) (E e : Z) :
  e <= E <= e + 4 ->
  Zpos (fst (shl_align M E e)) = Zpos M * 2 ^ (E - e).
Proof.
  intros HE. unfold shl_align.
  assert (Hcases : E = e \/ E = e + 1 \/ E = e + 2 \/ E = e + 3 \/ E = e + 4)
    by lia.
  destruct Hcases as [H|[H|[H|[H|H]]]]; subst E.
  - rewrite !Z.sub_diag. cbn [fst]. change (2 ^ 0) with 1. lia.
  - replace (e - (e + 1)) with (-1) by lia.
    replace (e + 1 - e) with 1 by lia. cbn. lia.
  - replace (e - (e + 2)) with (-2) by lia.
    replace (e + 2 - e) with 2 by lia. cbn. lia.
  - replace (e - (e + 3)) with (-3) by lia.
    replace (e + 3 - e) with 3 by lia. cbn. lia.
  - replace (e - (e + 4)) with (-4) by lia.
    replace (e + 4 - e) with 4 by lia. cbn. lia.
Qed.

(** One more copy added to an exact multiple: the sum is the next multiple,
    exactly. *)
Lemma SFadd_multiple s (n : positive) (e : Z) (k M : positive) (E : Z) :
  let m := (n~0~0~0~0)%positive in
  bounded prec emax m e = true -> e <= 967 -> Zpos k < 15 ->
  e <= E <= e + 4 -> Zpos M * 2 ^ (E - e) = Zpos (k * m) ->
  exists M' E',
    SF64add (S754_finite s M E) (S754_finite s m e) = S754_finite s M' E' /\
    e <= E' <= e + 4 /\
    Zpos M' * 2 ^ (E' - e) = Zpos ((k + 1) * m) /\
    bounded prec emax M' E' = true.
Proof.
  intros m Hb He Hk HE HM.
  pose proof (bounded_inv _ _ Hb) as [Hc _].
  pose proof (digits_multiple (k + 1) m ltac:(lia)) as Hd.
  unfold SF64add, SFadd. rewrite Z.min_r by lia.
  assert (H1 : fst (shl_align M E e) = (k * m)%positive).
  { apply Pos2Z.inj. now rewrite shl_align_fst. }
  assert (H2 : fst (shl_align m e e) = m).
  { unfold shl_align. now rewrite Z.sub_diag. }
  rewrite H1, H2.
  assert (Hsum : binary_normalize prec emax
                   (cond_Zopp s (Zpos (k * m)) + cond_Zopp s (Zpos m)) e false
                 = binary_round prec emax s ((k + 1) * m) e).
  { rewrite Pos.mul_add_distr_r, Pos.mul_1_l. destruct s; reflexivity. }
  rewrite Hsum.
  replace ((k + 1) * m)%positive with (((k + 1) * n)~0~0~0~0)%positive in *
    by (unfold m; now rewrite !Pos.mul_xO_r).
  destruct (binary_round_exact s ((k + 1) * n) e) as (M' & HR & HV & HB).
  - unfold fexp, SpecFloat.emin, prec, emax in *. lia.
  - unfold fexp, SpecFloat.emin, prec, emax in *. lia.
  - exists M'. eexists. split; [exact HR|]. split; [|split; assumption].
    unfold fexp, SpecFloat.emin, prec, emax in *. lia.
Qed.

Lemma digits_scaled (M : positive) (j : Z) (N : positive) :
  0 <= j -> Zpos M * 2 ^ j = Zpos N ->
  Zpos (digits2_pos N) = Zpos (digits2_pos M) + j.
Proof.
  intros Hj H. rewrite !digits_log2, <- H, Z.log2_mul_pow2 by lia. lia.
Qed.

Lemma digits_tenfold (m : positive) :
  Zpos (digits2_pos m) + 3 <= Zpos (digits2_pos (10 * m))
  <= Zpos (digits2_pos m) + 4.
Proof.
  split; [|apply (digits_multiple 10 m); lia].
  rewrite !digits_log2.
  assert (H : Z.log2 (Zpos m * 2 ^ 3) <= Z.log2 (Zpos (10 * m)))
    by (apply Z.log2_le_mono; change (2 ^ 3) with 8; lia).
  rewrite Z.log2_mul_pow2 in H by lia. lia.
Qed.

(** The tenfold multiple divided by 10 gives back the number. *)
Lemma SFdiv_tenfold s (m : positive) (e : Z) (M : positive) (E : Z) :
  bounded prec emax m e = true ->
  e <= E <= e + 4 -> Zpos M * 2 ^ (E - e) = Zpos (10 * m) ->
  SF64div (S754_finite s M E) Number.SF_ten = S754_finite s m e.
Proof.
  intros Hb HE HM.
  pose proof (bounded_inv _ _ Hb) as [Hc Hmax].
  pose proof (digits_tenfold m) as Hd.
  pose proof (digits_scaled M (E - e) (10 * m) ltac:(lia) HM) as HdM.
  unfold SF64div, SFdiv, Number.SF_ten, SFdiv_core_binary.
  change (Zdigits2 5629499534213120) with 53.
  change (Zdigits2 (Zpos M)) with (Zpos (digits2_pos M)).
  set (g := fexp prec emax (Zpos (digits2_pos M) + E - (53 + -49))).
  assert (Hg : g = e \/ g = e - 1)
    by (unfold g, fexp, SpecFloat.emin, prec, emax in *; lia).
  rewrite Z.min_l by lia.
  assert (Hs : exists p, E - -49 - g = Zpos p).
  { destruct (E - -49 - g) eqn:D; try lia. eauto. }
  destruct Hs as [p Hp]. rewrite Hp, <- Hp.
  rewrite Z.shiftl_mul_pow2 by lia.
  assert (Hm' : Zpos M * 2 ^ (E - -49 - g)
                = Zpos m * 2 ^ (e - g) * 5629499534213120).
  { replace (E - -49 - g) with ((E - e) + (e - g + 49)) by lia.
    rewrite Z.pow_add_r by lia. rewrite Z.mul_assoc, HM.
    rewrite Z.pow_add_r by lia. change (2 ^ 49) with 562949953421312. lia. }
  rewrite Hm', div_eucl_mul by lia.
  change (new_location 5629499534213120 0) with loc_Exact.
  rewrite xorb_false_r.
  destruct Hg as [Hg|Hg]; rewrite Hg.
  - rewrite Z.sub_diag. change (2 ^ 0) with 1. rewrite Z.mul_1_r.
    now apply binary_round_aux_canonical.
  - replace (e - (e - 1)) with 1 by lia. change (2 ^ 1) with 2.
    replace (Zpos m * 2) with (Zpos m~0) by lia.
    apply binary_round_aux_double; [assumption|].
    unfold g, fexp, SpecFloat.emin, prec, emax in *. lia.
Qed.

Lemma mod16_inv (m : positive) :
  Zpos m mod 16 = 0 -> exists n, m = (n~0~0~0~0)%positive.
Proof.
  intros H. apply Z.mod_divide in H; [|lia]. destruct H as [c Hc].
  destruct c as [|n|n]; try lia.
  exists n. apply Pos2Z.inj. lia.
Qed.

Lemma SFsum10_exact (x : spec_float) :
  valid_binary x = true -> Number.SFshort x = true ->
  SF64div
    (SF64add (SF64add (SF64add (SF64add (SF64add (SF64add (SF64add (SF64add
      (SF64add x x) x) x) x) x) x) x) x) x) Number.SF_ten = x.
Proof.
  destruct x as [s|s| |s m e]; intros Hv Hs.
  - destruct s; reflexivity.
  - destruct s; reflexivity.
  - reflexivity.
  - cbn [valid_binary] in Hv. cbn [Number.SFshort] in Hs.
    apply andb_true_iff in Hs. destruct Hs as [H16 He].
    apply Z.eqb_eq in H16. apply Z.leb_le in He.
    destruct (mod16_inv m H16) as [n ->].
    destruct (SFadd_multiple s n e 1 (n~0~0~0~0) e Hv He) as (M2 & E2 & -> & HE2 & HM2 & _);
      [lia | lia | rewrite Z.sub_diag; change (2 ^ 0) with 1; lia |].
    destruct (SFadd_multiple s n e 2 M2 E2 Hv He) as (M3 & E3 & -> & HE3 & HM3 & _);
      [lia | lia | exact HM2 |].
    destruct (SFadd_multiple s n e 3 M3 E3 Hv He) as (M4 & E4 & -> & HE4 & HM4 & _);
      [lia | lia | exact HM3 |].
    destruct (SFadd_multiple s n e 4 M4 E4 Hv He) as (M5 & E5 & -> & HE5 & HM5 & _);
      [lia | lia | exact HM4 |].
    destruct (SFadd_multiple s n e 5 M5 E5 Hv He) as (M6 & E6 & -> & HE6 & HM6 & _);
      [lia | lia | exact HM5 |].
    destruct (SFadd_multiple s n e 6 M6 E6 Hv He) as (M7 & E7 & -> & HE7 & HM7 & _);
      [lia | lia | exact HM6 |].
    destruct (SFadd_multiple s n e 7 M7 E7 Hv He) as (M8 & E8 & -> & HE8 & HM8 & _);
      [lia | lia | exact HM7 |].
    destruct (SFadd_multiple s n e 8 M8 E8 Hv He) as (M9 & E9 & -> & HE9 & HM9 & _);
      [lia | lia | exact HM8 |].
    destruct (SFadd_multiple s n e 9 M9 E9 Hv He) as (M10 & E10 & -> & HE10 & HM10 & _);
      [lia | lia | exact HM9 |].
    now apply (SFdiv_tenfold s (n~0~0~0~0) e M10 E10).
Qed.

(** The average of ten copies of a number with a short significand is that
    number: every partial sum is a double, and so is the quotient. *)
Lemma tenfold_average (r : number) :
  Number.short_significand r = true ->
  ((r + r + r + r + r + r + r + r + r + r) / 10)%float = r.
Proof.
  intros H. apply Prim2SF_inj.
  rewrite div_spec, !add_spec.
  change (Prim2SF 10) with Number.SF_ten.
  apply SFsum10_exact; [apply Prim2SF_valid | exact H].
Qed.

End NumberFacts.

(** ** The moving-average window *)

Section Window.

Local Open Scope nat_scope.

Lemma slide_nonempty (q : list number) (r : number) :
  exists x xs, slide q r = x :: xs.
Proof.
  unfold slide, shift, MOVING_AVERAGE_WINDOW.
  destruct (10 <? List.length (q ++ [r])) eqn:H.
  - apply Nat.ltb_lt in H.
    destruct (q ++ [r]) as [|y [|z l]]; simpl in *; try lia; eauto.
  - destruct q; simpl; eauto.
Qed.

Lemma slide_cases (q : list number) (r : number) :
  (List.length q < MOVING_AVERAGE_WINDOW /\ slide q r = q ++ [r]) \/
  (MOVING_AVERAGE_WINDOW <= List.length q /\
   exists oldest rest, q = oldest :: rest /\ slide q r = rest ++ [r]).
Proof.
  unfold slide, shift, MOVING_AVERAGE_WINDOW. rewrite length_app. simpl.
  destruct (10 <? List.length q + 1) eqn:H.
  - apply Nat.ltb_lt in H. right. split; [lia|].
    destruct q as [|x q]; simpl in *; [lia|]. eauto.
  - apply Nat.ltb_ge in H. left. split; [lia|reflexivity].
Qed.

Lemma slide_length (q : list number) (r : number) :
  List.length q <= MOVING_AVERAGE_WINDOW ->
  List.length (slide q r) <= MOVING_AVERAGE_WINDOW.
Proof.
  intros Hq.
  destruct (slide_cases q r) as [[Hlt ->]|[Hge (x & l & -> & ->)]];
    rewrite length_app; simpl in *; lia.
Qed.

(** What one call of [updateMovingAverage] does, in full. *)
Lemma updateMovingAverage_run (r : number) (st : Static) :
  exists x xs,
    slide (movingAverageQueue st) r = x :: xs /\
    updateMovingAverage r st =
      (Return (fold_left PrimFloat.add xs x
               / Number.of_length (List.length (x :: xs)))%float,
       {| movingAverageQueue := x :: xs; console := console st |}).
Proof.
  destruct (slide_nonempty (movingAverageQueue st) r) as (x & xs & E).
  exists x, xs. split; [exact E|].
  unfold updateMovingAverage, bind, getQueue, setQueue, ret, lift.
  cbn [movingAverageQueue console].
  unfold slide in E.
  destruct (MOVING_AVERAGE_WINDOW <? List.length (movingAverageQueue st ++ [r]));
    cbn [movingAverageQueue console]; rewrite E; reflexivity.
Qed.

Lemma updateMovingAverage_queue (r : number) (st : Static) :
  movingAverageQueue (snd (updateMovingAverage r st)) =
  slide (movingAverageQueue st) r.
Proof.
  destruct (updateMovingAverage_run r st) as (x & xs & E & ->).
  now rewrite E.
Qed.

Lemma pushes_snoc (rs : list number) (r : number) (st : Static) :
  pushes (rs ++ [r]) st = snd (updateMovingAverage r (pushes rs st)).
Proof. unfold pushes. now rewrite fold_left_app. Qed.

Lemma tl_skipn {A} (k : nat) (l : list A) : tl (skipn k l) = skipn (S k) l.
Proof.
  revert l. induction k as [|k IH]; intros [|a l]; try reflexivity.
  exact (IH l).
Qed.

Lemma lastn_snoc_short {A} (n : nat) (l : list A) (a : A) :
  List.length l < n -> lastn n (l ++ [a]) = lastn n l ++ [a].
Proof.
  intros H. unfold lastn. rewrite length_app. simpl.
  replace (List.length l + 1 - n) with 0 by lia.
  replace (List.length l - n) with 0 by lia. reflexivity.
Qed.

Lemma lastn_snoc_full {A} (n : nat) (l : list A) (a : A) :
  0 < n -> n <= List.length l ->
  lastn n (l ++ [a]) = tl (lastn n l) ++ [a].
Proof.
  intros Hn H. unfold lastn. rewrite length_app, tl_skipn. simpl.
  replace (List.length l + 1 - n) with (S (List.length l - n)) by lia.
  rewrite skipn_app.
  replace (S (List.length l - n) - List.length l) with 0 by lia.
  reflexivity.
Qed.

Lemma lastn_length {A} (n : nat) (l : list A) :
  List.length (lastn n l) = Nat.min n (List.length l).
Proof. unfold lastn. rewrite length_skipn. lia. Qed.

(** After any pushes from the empty window, the window is the last
    [MOVING_AVERAGE_WINDOW] ratios pushed, in arrival order. *)
Lemma pushes_window (rs : list number) :
  movingAverageQueue (pushes rs initial) = lastn MOVING_AVERAGE_WINDOW rs.
Proof.
  induction rs as [|r rs IH] using rev_ind; [reflexivity|].
  rewrite pushes_snoc, updateMovingAverage_queue, IH.
  destruct (slide_cases (lastn MOVING_AVERAGE_WINDOW rs) r)
    as [[Hlt ->]|[Hge (x & l & E & ->)]].
  - rewrite lastn_length in Hlt. rewrite lastn_snoc_short; [reflexivity|].
    unfold MOVING_AVERAGE_WINDOW in *. lia.
  - rewrite lastn_length in Hge. rewrite lastn_snoc_full, E; [reflexivity| |];
      unfold MOVING_AVERAGE_WINDOW in *; lia.
Qed.

End Window.

(** ** The classifier and the row *)

Section Pipeline.


(** What [generateRow] does on an array that holds (at least) a pair of
    quotes: it never throws, and the row and the new state are these. *)
Lemma generateRow_run (a b : ServerRespond) (rest : list ServerRespond)
    (st : Static) :
  let r := (midPrice a / midPrice b)%float in
  let ub := (1 + THRESHOLD)%float in
  let lb := (1 - THRESHOLD)%float in
  exists avg st1,
    updateMovingAverage r st = (Return avg, st1) /\
    movingAverageQueue st1 = slide (movingAverageQueue st) r /\
    generateRow (a :: b :: rest) st =
      (Return {| price_abc := midPrice a;
                 price_def := midPrice b;
                 ratio := r;
                 row_timestamp :=
                   if Date_gt (timestamp a) (timestamp b)
                   then timestamp a else timestamp b;
                 upper_bound := ub;
                 lower_bound := lb;
                 trigger_alert := if breach r ub lb then Some r else None;
                 moving_average := avg;
                 signal := generateSignal r avg ub lb |},
       {| movingAverageQueue := movingAverageQueue st1;
          console :=
            console st1 ++
            [("Generated Signal: " ++
              show_signal (generateSignal r avg ub lb))%string] |}).
Proof.
  intros r ub lb.
  destruct (updateMovingAverage_run r st) as (x & xs & E & Hrun).
  eexists. eexists. split; [exact Hrun|]. split; [now rewrite E|].
  unfold generateRow, bind, lift, ret, console_log.
  cbn [nth_error calculateMidPrice].
  fold (midPrice a). fold (midPrice b). fold r.
  rewrite Hrun. reflexivity.
Qed.

(** The quotes of the specification's example, on a window holding 1.0:
    the new average 1.056... is below the ratio 1.112..., which sells. *)
Example generateRow_example :
  generateRow [quote 100 98 5; quote 90 88 7]
    {| movingAverageQueue := [1.0%float]; console := [] |} =
  (Return {| price_abc := 99;
             price_def := 89;
             ratio := 1.1123595505617978;
             row_timestamp := ValidDate 7;
             upper_bound := 1.05;
             lower_bound := 0.95;
             trigger_alert := Some 1.1123595505617978%float;
             moving_average := 1.0561797752808988;
             signal := Some SELL |},
   {| movingAverageQueue := [1.0; 1.1123595505617978]%float;
      console := ["Generated Signal: SELL"%string] |}).
Proof. vm_compute. reflexivity. Qed.

End Pipeline.

(** Runs [generateRow] on a pair and keeps the equation of its result. *)
Ltac run_generateRow a b rest st Hrow :=
  let avg := fresh "avg" in
  let st1 := fresh "st1" in
  destruct (generateRow_run a b rest st) as (avg & st1 & _ & _ & Hrow);
  eexists; eexists; split; [exact Hrow|].

(** ** Properties of the specification *)

Section RatioCalculator.




End RatioCalculator.

Section PriceNormalizer.

(** C6, as the specification states it, fails: negative and non-finite
    prices are accepted and averaged like any others. *)
Lemma invalid_quote_not_rejected :
  calculateMidPrice (Some (quote (-4) (-2) 0)) = Return (-3)%float /\
  calculateMidPrice (Some (quote infinity 1 0)) = Return infinity /\
  calculateMidPrice (Some (quote nan 1 0)) = Return nan /\
  (forall e, calculateMidPrice (Some (quote (-4) (-2) 0)) <> Throw e).
Proof.
  repeat split; try reflexivity. intros e. discriminate.
Qed.

(** C6 (amended): on every quote, whatever its prices, the mid-price
    operation returns [(ask_price + bid_price) / 2] and fails with no error;
    lifted into the pipeline it leaves the state as it was. *)
Theorem calculateMidPrice_total (d : ServerRespond) (st : Static) :
  calculateMidPrice (Some d)
    = Return ((price (top_ask d) + price (top_bid d)) / 2)%float /\
  (forall e, calculateMidPrice (Some d) <> Throw e) /\
  lift (calculateMidPrice (Some d)) st
    = (Return ((price (top_ask d) + price (top_bid d)) / 2)%float, st).
Proof.
  repeat split. intros e. discriminate.
Qed.

End PriceNormalizer.

Section SignalClassifier.

(** C2: the classifier applies its four rules in order, the first that
    matches deciding; every comparison is strict, so a ratio [==] to a bound
    is not beyond that bound, and with the bounds of the pipeline a ratio
    [==] to either bound gives no signal. *)
Theorem generateSignal_rules (r avg upperBound lowerBound : number) :
  let rule1 := Number.gt r upperBound = true /\ Number.gt r avg = true in
  let rule2 := Number.lt r lowerBound = true /\ Number.lt r avg = true in
  let rule3 := Number.gt r upperBound = true \/ Number.lt r lowerBound = true in
  (rule1 -> generateSignal r avg upperBound lowerBound = Some SELL) /\
  (~ rule1 -> rule2 ->
   generateSignal r avg upperBound lowerBound = Some BUY) /\
  (~ rule1 -> ~ rule2 -> rule3 ->
   generateSignal r avg upperBound lowerBound = Some HOLD) /\
  (~ rule1 -> ~ rule2 -> ~ rule3 ->
   generateSignal r avg upperBound lowerBound = None) /\
  (Number.eq r upperBound = true -> Number.gt r upperBound = false) /\
  (Number.eq r lowerBound = true -> Number.lt r lowerBound = false) /\
  (Number.eq r (1 + THRESHOLD) = true \/ Number.eq r (1 - THRESHOLD) = true ->
   generateSignal r avg (1 + THRESHOLD) (1 - THRESHOLD) = None).
Proof.
  cbv zeta. unfold generateSignal.
  repeat split.
  - intros [-> ->]. reflexivity.
  - intros N1 [H1 H2]. rewrite H1, H2.
    destruct (Number.gt r upperBound), (Number.gt r avg); simpl; tauto.
  - intros N1 N2 H3.
    destruct (Number.gt r upperBound), (Number.gt r avg),
      (Number.lt r lowerBound), (Number.lt r avg); simpl;
      try reflexivity; tauto.
  - intros N1 N2 N3.
    destruct (Number.gt r upperBound), (Number.gt r avg),
      (Number.lt r lowerBound), (Number.lt r avg); simpl;
      try reflexivity; tauto.
  - intros H. destruct (NumberFacts.eq_not_gt_lt _ _ H); assumption.
  - intros H. destruct (NumberFacts.eq_not_gt_lt _ _ H); assumption.
  - intros [H|H].
    + apply (NumberFacts.eq_finite_eq r (1 + THRESHOLD) false
               4728779608739021 (-52) eq_refl) in H.
      subst r. reflexivity.
    + apply (NumberFacts.eq_finite_eq r (1 - THRESHOLD) false
               8556839292003942 (-53) eq_refl) in H.
      subst r. reflexivity.
Qed.

(** The four rules on the examples of the specification: a breach above the
    average sells, a breach below the average buys, a breach on the other
    side of the average holds, no breach gives no signal. *)
Lemma generateSignal_rules_witness :
  generateSignal 1.1123595505617978 1.0 1.05 0.95 = Some SELL /\
  generateSignal 0.80 0.90 1.05 0.95 = Some BUY /\
  generateSignal 1.10 1.20 1.05 0.95 = Some HOLD /\
  generateSignal 1.00 1.00 1.05 0.95 = None /\
  generateSignal 1.05 1.00 1.05 0.95 = None.
Proof.
  split; [|split; [|split; [|split]]].
  - apply (proj1 (generateSignal_rules 1.1123595505617978 1.0 1.05 0.95)).
    split; reflexivity.
  - apply (proj1 (proj2 (generateSignal_rules 0.80 0.90 1.05 0.95))).
    + intros [H _]. discriminate H.
    + split; reflexivity.
  - apply (proj1 (proj2 (proj2 (generateSignal_rules 1.10 1.20 1.05 0.95)))).
    + intros [_ H]. discriminate H.
    + intros [H _]. discriminate H.
    + left. reflexivity.
  - apply (proj1 (proj2 (proj2 (proj2
             (generateSignal_rules 1.00 1.00 1.05 0.95))))).
    + intros [H _]. discriminate H.
    + intros [H _]. discriminate H.
    + intros [H | H]; discriminate H.
  - apply (proj2 (proj2 (proj2 (proj2 (proj2 (proj2
             (generateSignal_rules 1.05 1.00 1.05 0.95))))))).
    left. reflexivity.
Defined.

End SignalClassifier.

Section MovingAverageTracker.

Local Open Scope nat_scope.

(** C3: after any sequence of pushes from the empty window, the window holds
    at most [MOVING_AVERAGE_WINDOW] entries, namely the last ones pushed in
    arrival order; a further push either only appends, or (on a full window)
    also drops the single oldest entry, the head, and nothing else. *)
Theorem window_bounded_fifo (rs : list number) (r : number) :
  let q := movingAverageQueue (pushes rs initial) in
  let q' := movingAverageQueue (pushes (rs ++ [r]) initial) in
  List.length q <= MOVING_AVERAGE_WINDOW /\
  List.length q' <= MOVING_AVERAGE_WINDOW /\
  q = lastn MOVING_AVERAGE_WINDOW rs /\
  (q' = q ++ [r] \/
   (List.length q = MOVING_AVERAGE_WINDOW /\
    exists oldest rest, q = oldest :: rest /\ q' = rest ++ [r])).
Proof.
  cbv zeta.
  assert (Hlen : forall l : list number,
             List.length (movingAverageQueue (pushes l initial))
             <= MOVING_AVERAGE_WINDOW).
  { intros l. rewrite pushes_window, lastn_length. lia. }
  split; [apply Hlen|]. split; [apply Hlen|].
  split; [apply pushes_window|].
  rewrite pushes_snoc, updateMovingAverage_queue.
  destruct (slide_cases (movingAverageQueue (pushes rs initial)) r)
    as [[_ E]|[Hge (x & l & Eq & E)]].
  - left. exact E.
  - right. split.
    + specialize (Hlen rs). lia.
    + exists x, l. split; assumption.
Qed.

(** C7: a push into the empty window returns exactly the value pushed (the
    same double, whichever it is), and leaves the window holding it alone. *)
Theorem first_push_average (v : number) (log : list string) :
  updateMovingAverage v {| movingAverageQueue := []; console := log |} =
    (Return v, {| movingAverageQueue := [v]; console := log |}).
Proof.
  unfold updateMovingAverage, bind, getQueue, setQueue, lift, ret.
  cbn. change (Number.of_length 1) with 1%float.
  now rewrite NumberFacts.div_one.
Qed.

(** C8, as the specification states it, fails: the sum of ten copies of the
    double 0.1 is rounded, and the average returned by the eleventh push is
    not 0.1. *)
Lemma constant_pushes_average_inexact :
  fst (updateMovingAverage 0.1
         (pushes (repeat 0.1%float MOVING_AVERAGE_WINDOW) initial))
    = Return 0.09999999999999999%float /\
  Number.eq 0.09999999999999999 0.1 = false /\
  fst (updateMovingAverage 0.1
         (pushes (repeat 0.1%float MOVING_AVERAGE_WINDOW) initial))
    <> Return 0.1%float.
Proof.
  assert (E : fst (updateMovingAverage 0.1
                (pushes (repeat 0.1%float MOVING_AVERAGE_WINDOW) initial))
              = Return 0.09999999999999999%float)
    by (vm_compute; reflexivity).
  split; [exact E|]. split; [reflexivity|].
  rewrite E. intros H.
  apply (f_equal (fun o => match o with
                           | Return x => Number.eq x 0.1
                           | Throw _ => true
                           end)) in H.
  vm_compute in H. discriminate.
Qed.

(** The eleventh push of a constant, on any value: the window is ten copies
    of it, and the average their sum from left to right, divided by 10. *)
Lemma constant_pushes_run (r : number) :
  updateMovingAverage r (pushes (repeat r MOVING_AVERAGE_WINDOW) initial) =
    (Return ((r + r + r + r + r + r + r + r + r + r) / 10)%float,
     {| movingAverageQueue := repeat r MOVING_AVERAGE_WINDOW;
        console := [] |}).
Proof. reflexivity. Qed.

(** C8 (amended): for every [r] with a short significand (a zero, an
    infinity, NaN, or a double below [2^1020] in magnitude whose mantissa
    ends in four zero bits), after [MOVING_AVERAGE_WINDOW] pushes of [r] and
    one more, the returned average is [r], and the window holds
    [MOVING_AVERAGE_WINDOW] copies of [r]. *)
Theorem constant_pushes_average (r : number) :
  Number.short_significand r = true ->
  updateMovingAverage r (pushes (repeat r MOVING_AVERAGE_WINDOW) initial) =
    (Return r,
     {| movingAverageQueue := repeat r MOVING_AVERAGE_WINDOW;
        console := [] |}).
Proof.
  intros Hr. rewrite constant_pushes_run.
  now rewrite (NumberFacts.tenfold_average r Hr).
Qed.

Lemma constant_pushes_average_witness :
  Number.short_significand 1.125 = true /\
  updateMovingAverage 1.125
    (pushes (repeat 1.125%float MOVING_AVERAGE_WINDOW) initial) =
    (Return 1.125%float,
     {| movingAverageQueue := repeat 1.125%float MOVING_AVERAGE_WINDOW;
        console := [] |}).
Proof.
  split; [reflexivity|].
  apply (constant_pushes_average 1.125%float). reflexivity.
Defined.

(** C10: a call never reaches the error of [reduce] on an empty array: the
    window it averages has a first element, so the call returns; and in
    every state reached by pushes from the empty window the divisor, the
    window length, is a number between 1 and 10, not [== 0]. *)
Theorem reduce_never_empty (r : number) (st : Static) (rs : list number) :
  (exists x xs avg,
     movingAverageQueue (snd (updateMovingAverage r st)) = x :: xs /\
     reduce PrimFloat.add (x :: xs) = Return (fold_left PrimFloat.add xs x) /\
     fst (updateMovingAverage r st) = Return avg /\
     1 <= List.length (movingAverageQueue (snd (updateMovingAverage r st)))) /\
  (forall e, fst (updateMovingAverage r st) <> Throw e) /\
  (let q := movingAverageQueue (snd (updateMovingAverage r (pushes rs initial)))
   in 1 <= List.length q <= MOVING_AVERAGE_WINDOW /\
      Number.eq (Number.of_length (List.length q)) 0 = false).
Proof.
  split; [|split].
  - destruct (updateMovingAverage_run r st) as (x & xs & E & ->).
    exists x, xs. eexists. cbn [fst snd movingAverageQueue].
    repeat split. simpl. lia.
  - destruct (updateMovingAverage_run r st) as (x & xs & E & ->).
    intros e. discriminate.
  - cbv zeta. rewrite <- pushes_snoc, pushes_window, lastn_length.
    rewrite length_app. simpl List.length.
    set (n := Nat.min MOVING_AVERAGE_WINDOW (List.length rs + 1)).
    assert (Hn : 1 <= n <= 10) by (unfold n, MOVING_AVERAGE_WINDOW; lia).
    split; [exact Hn|]. clearbody n.
    do 11 (destruct n as [|n]; [try lia; reflexivity|]). lia.
Qed.

End MovingAverageTracker.

Section RowAssembler.


(** C5: on every pair whose two timestamps are valid dates, the row's
    timestamp is the later of the two. *)
Theorem row_timestamp_latest (a b : ServerRespond)
    (rest : list ServerRespond) (st : Static) (ta tb : Z) :
  timestamp a = ValidDate ta ->
  timestamp b = ValidDate tb ->
  exists row st',
    generateRow (a :: b :: rest) st = (Return row, st') /\
    row_timestamp row = ValidDate (Z.max ta tb) /\
    (row_timestamp row = timestamp a \/ row_timestamp row = timestamp b).
Proof.
  intros Ha Hb.
  run_generateRow a b rest st Hrow.
  cbn [row_timestamp]. rewrite Ha, Hb. unfold Date_gt.
  rewrite Z.gtb_ltb.
  destruct (Z.ltb_spec tb ta).
  - rewrite Z.max_l by lia. auto.
  - rewrite Z.max_r by lia. auto.
Qed.

Lemma row_timestamp_latest_witness :
  timestamp (quote 100 98 5) = ValidDate 5 /\
  timestamp (quote 90 88 7) = ValidDate 7 /\
  exists row st',
    generateRow (quote 100 98 5 :: quote 90 88 7 :: []) initial
      = (Return row, st') /\
    row_timestamp row = ValidDate (Z.max 5 7) /\
    (row_timestamp row = timestamp (quote 100 98 5) \/
     row_timestamp row = timestamp (quote 90 88 7)).
Proof.
  split; [reflexivity|]. split; [reflexivity|].
  apply (row_timestamp_latest (quote 100 98 5) (quote 90 88 7) [] initial
           5%Z 7%Z); reflexivity.
Defined.


End RowAssembler.

(** ** Further facts on binary64 numbers: order, NaN, exact quotients *)

Module NumberLaws.

Local Open Scope Z_scope.

(** *** The order *)




(** *** NaN *)
Lemma SFcompare_refl (x : spec_float) :
  x <> S754_nan -> SFcompare x x = Some Eq.
Proof.
  destruct x as [s|s| |s m e]; simpl; intros H; try reflexivity.
  - destruct s; reflexivity.
  - congruence.
  - destruct s; rewrite Z.compare_refl, Pos.compare_cont_refl; reflexivity.
Qed.

Lemma is_nan_spec (x : number) :
  PrimFloat.is_nan x = true <-> Prim2SF x = S754_nan.
Proof.
  unfold PrimFloat.is_nan. rewrite eqb_spec. unfold SFeqb. split.
  - intros H. destruct (Prim2SF x) eqn:E; try reflexivity;
      rewrite SFcompare_refl in H by discriminate; discriminate.
  - intros ->. reflexivity.
Qed.

Lemma add_nan_l (x y : number) :
  PrimFloat.is_nan x = true -> PrimFloat.is_nan (x + y) = true.
Proof.
  rewrite !is_nan_spec, add_spec. intros ->. reflexivity.
Qed.

Lemma add_nan_r (x y : number) :
  PrimFloat.is_nan y = true -> PrimFloat.is_nan (x + y) = true.
Proof.
  rewrite !is_nan_spec, add_spec. intros ->. now destruct (Prim2SF x).
Qed.

Lemma div_nan_l (x y : number) :
  PrimFloat.is_nan x = true -> PrimFloat.is_nan (x / y) = true.
Proof.
  rewrite !is_nan_spec, div_spec. intros ->. reflexivity.
Qed.

Lemma ltb_nan_r (x y : number) :
  PrimFloat.is_nan y = true -> PrimFloat.ltb x y = false.
Proof.
  rewrite is_nan_spec, ltb_spec. intros ->. unfold SFltb.
  now destruct (Prim2SF x).
Qed.

Lemma ltb_nan_l (x y : number) :
  PrimFloat.is_nan x = true -> PrimFloat.ltb x y = false.
Proof.
  rewrite is_nan_spec, ltb_spec. intros ->. reflexivity.
Qed.

Lemma fold_add_nan_acc (l : list number) (acc : number) :
  PrimFloat.is_nan acc = true ->
  PrimFloat.is_nan (fold_left PrimFloat.add l acc) = true.
Proof.
  revert acc. induction l as [|y l IH]; intros acc H; simpl; [exact H|].
  apply IH. now apply add_nan_l.
Qed.

Lemma fold_add_nan (l : list number) (acc x : number) :
  In x (acc :: l) -> PrimFloat.is_nan x = true ->
  PrimFloat.is_nan (fold_left PrimFloat.add l acc) = true.
Proof.
  revert acc. induction l as [|y l IH]; intros acc Hin Hx.
  - destruct Hin as [->|[]]. exact Hx.
  - simpl. destruct Hin as [->|[->|Hin]].
    + apply fold_add_nan_acc. now apply add_nan_l.
    + apply fold_add_nan_acc. now apply add_nan_r.
    + apply IH; [right; exact Hin | exact Hx].
Qed.

(** *** A number divided by itself *)
Lemma SFdiv_self s m e :
  SF64div (S754_finite s m e) (S754_finite s m e) = Number.SF_one.
Proof.
  unfold SF64div, SFdiv, SFdiv_core_binary.
  rewrite !Z.sub_diag.
  change (fexp prec emax 0) with (-53).
  change (Z.min (-53) 0) with (-53).
  change (0 - -53) with 53.
  rewrite Z.shiftl_mul_pow2 by lia.
  rewrite (Z.mul_comm (Zpos m)), NumberFacts.div_eucl_mul by lia.
  assert (Hloc : new_location (Zpos m) 0 = loc_Exact).
  { unfold new_location. destruct (Z.even (Zpos m)); reflexivity. }
  rewrite Hloc, xorb_nilpotent. reflexivity.
Qed.

Lemma finite_nonzero_inv (x : number) :
  Number.isFinite x = true -> Number.eq x 0 = false ->
  exists s m e, Prim2SF x = S754_finite s m e.
Proof.
  rewrite NumberFacts.isFinite_spec. unfold Number.eq.
  rewrite eqb_spec, NumberFacts.Prim2SF_zero.
  destruct (Prim2SF x) as [s|s| |s m e]; intros Hf Hz;
    try discriminate; eauto.
Qed.

Lemma div_self (x : number) :
  Number.isFinite x = true -> Number.eq x 0 = false -> (x / x)%float = 1%float.
Proof.
  intros Hf Hz. destruct (finite_nonzero_inv x Hf Hz) as (s & m & e & E).
  apply Prim2SF_inj. rewrite div_spec, E, NumberFacts.Prim2SF_one.
  apply SFdiv_self.
Qed.

(** *** Addition commutes *)
Lemma SFadd_comm (x y : spec_float) : SF64add x y = SF64add y x.
Proof.
  destruct x as [sx|sx| |sx mx ex], y as [sy|sy| |sy my ey]; simpl;
    try reflexivity;
    try (destruct sx, sy; reflexivity).
  unfold SF64add, SFadd. rewrite (Z.min_comm ey ex).
  now rewrite Z.add_comm.
Qed.

Lemma add_comm (x y : number) : (x + y)%float = (y + x)%float.
Proof. apply Prim2SF_inj. rewrite !add_spec. apply SFadd_comm. Qed.

(** *** Doubling and halving *)

Lemma Prim2SF_two : Prim2SF 2%float = SF_two.
Proof. reflexivity. Qed.

(** Doubling: [x + x] for a finite [x] is [2 x], or an infinity when the
    exponent is already the largest. *)
Lemma SFadd_self s (m : positive) (e : Z) :
  bounded prec emax m e = true ->
  (e = 971 /\ SF64add (S754_finite s m e) (S754_finite s m e) = S754_infinity s)
  \/
  (exists M E,
     SF64add (S754_finite s m e) (S754_finite s m e) = S754_finite s M E /\
     e <= E <= e + 1 /\
     Zpos M * 2 ^ (E - e) = Zpos m~0).
Proof.
  intros Hb. pose proof (NumberFacts.bounded_inv _ _ Hb) as [Hc Hmax].
  unfold SF64add, SFadd. rewrite Z.min_id.
  assert (Hal : fst (shl_align m e e) = m)
    by (unfold shl_align; now rewrite Z.sub_diag).
  rewrite Hal.
  assert (Hsum : binary_normalize prec emax
                   (cond_Zopp s (Zpos m) + cond_Zopp s (Zpos m)) e false
                 = binary_round prec emax s m~0 e).
  { destruct s; simpl; rewrite Pos.add_diag; reflexivity. }
  rewrite Hsum. clear Hsum Hal.
  unfold binary_round.
  set (E := fexp prec emax (Zpos (digits2_pos m~0) + e)).
  assert (HD : Zpos (digits2_pos m~0) = Zpos (digits2_pos m) + 1)
    by apply NumberFacts.digits_xO.
  assert (HE : E = e \/ E = e + 1)
    by (unfold E, fexp, SpecFloat.emin, prec, emax in *; lia).
  assert (Hsh : shl_align m~0 e E = (m~0, e)%positive).
  { unfold shl_align. destruct (E - e) eqn:D; try reflexivity. lia. }
  rewrite Hsh. unfold binary_round_aux, shr_fexp.
  change (Zdigits2 (Zpos m~0)) with (Zpos (digits2_pos m~0)). fold E.
  destruct HE as [HE|HE].
  - right. exists (m~0)%positive, e.
    replace (E - e) with 0 by lia.
    cbn [shr shr_record_of_loc round_nearest_even shr_m loc_of_shr_record
         Zdigits2].
    fold E. replace (E - e) with 0 by lia. cbn [shr shr_m].
    change (emax - prec) with 971.
    apply Z.leb_le in Hmax. rewrite Hmax.
    split; [reflexivity|]. split; [lia|].
    rewrite Z.sub_diag. change (2 ^ 0) with 1. lia.
  - replace (E - e) with 1 by lia.
    cbn [shr shr_record_of_loc iter_pos shr_1 round_nearest_even shr_m
         loc_of_shr_record orb Zdigits2].
    replace (fexp prec emax (Zpos (digits2_pos m) + (e + 1)))
      with E by (unfold E; f_equal; lia).
    replace (E - (e + 1)) with 0 by lia. cbn [shr shr_m].
    change (emax - prec) with 971.
    destruct (e + 1 <=? 971) eqn:Hle.
    + right. exists m, (e + 1). split; [reflexivity|]. split; [lia|].
      replace (e + 1 - e) with 1 by lia. change (2 ^ 1) with 2. lia.
    + left. apply Z.leb_gt in Hle. split; [lia|reflexivity].
Qed.

(** Halving the double of a number gives it back. *)
Lemma SFdiv_twofold s (m : positive) (e : Z) (M : positive) (E : Z) :
  bounded prec emax m e = true ->
  e <= E <= e + 1 -> Zpos M * 2 ^ (E - e) = Zpos m~0 ->
  SF64div (S754_finite s M E) SF_two = S754_finite s m e.
Proof.
  intros Hb HE HM.
  pose proof (NumberFacts.bounded_inv _ _ Hb) as [Hc Hmax].
  pose proof (NumberFacts.digits_scaled M (E - e) m~0 ltac:(lia) HM) as HdM.
  rewrite NumberFacts.digits_xO in HdM.
  unfold SF64div, SFdiv, SF_two, SFdiv_core_binary.
  change (Zdigits2 4503599627370496) with 53.
  change (Zdigits2 (Zpos M)) with (Zpos (digits2_pos M)).
  set (g := fexp prec emax (Zpos (digits2_pos M) + E - (53 + -51))).
  assert (Hg : g = e \/ g = e - 1)
    by (unfold g, fexp, SpecFloat.emin, prec, emax in *; lia).
  rewrite Z.min_l by lia.
  assert (Hs : exists p, E - -51 - g = Zpos p).
  { destruct (E - -51 - g) eqn:D; try lia. eauto. }
  destruct Hs as [p Hp]. rewrite Hp, <- Hp.
  rewrite Z.shiftl_mul_pow2 by lia.
  assert (Hm' : Zpos M * 2 ^ (E - -51 - g)
                = Zpos m * 2 ^ (e - g) * 4503599627370496).
  { replace (E - -51 - g) with ((E - e) + (e - g + 51)) by lia.
    rewrite Z.pow_add_r by lia. rewrite Z.mul_assoc, HM.
    rewrite Z.pow_add_r by lia. change (2 ^ 51) with 2251799813685248. lia. }
  rewrite Hm', NumberFacts.div_eucl_mul by lia.
  change (new_location 4503599627370496 0) with loc_Exact.
  rewrite xorb_false_r.
  destruct Hg as [Hg|Hg]; rewrite Hg.
  - rewrite Z.sub_diag. change (2 ^ 0) with 1. rewrite Z.mul_1_r.
    now apply NumberFacts.binary_round_aux_canonical.
  - replace (e - (e - 1)) with 1 by lia. change (2 ^ 1) with 2.
    replace (Zpos m * 2) with (Zpos m~0) by lia.
    apply NumberFacts.binary_round_aux_double; [assumption|].
    unfold g, fexp, SpecFloat.emin, prec, emax in *. lia.
Qed.

Lemma SFhalf_double (x : spec_float) :
  valid_binary x = true ->
  match SF64add x x with
  | S754_nan | S754_infinity _ => True
  | _ => SF64div (SF64add x x) SF_two = x
  end.
Proof.
  destruct x as [s|s| |s m e]; intros Hv.
  - destruct s; reflexivity.
  - destruct s; exact I.
  - exact I.
  - cbn [valid_binary] in Hv.
    destruct (SFadd_self s m e Hv) as [[_ ->]|(M & E & -> & HE & HM)];
      [exact I|].
    now apply (SFdiv_twofold s m e M E).
Qed.

Lemma half_double (x : number) :
  Number.isFinite (x + x) = true -> ((x + x) / 2)%float = x.
Proof.
  rewrite NumberFacts.isFinite_spec, add_spec. intros H.
  apply Prim2SF_inj. rewrite div_spec, add_spec, Prim2SF_two.
  pose proof (SFhalf_double (Prim2SF x) (Prim2SF_valid x)) as Hx.
  unfold SF64add in *.
  destruct (SFadd prec emax (Prim2SF x) (Prim2SF x)); try discriminate;
    exact Hx.
Qed.

End NumberLaws.

(** ** Further properties of the class *)

Section WindowFromAnyState.

Local Open Scope nat_scope.

Lemma pushes_queue (rs : list number) (st : Static) :
  movingAverageQueue (pushes rs st) = fold_left slide rs (movingAverageQueue st).
Proof.
  revert st. induction rs as [|r rs IH]; intros st; [reflexivity|].
  unfold pushes in *. cbn [fold_left].
  rewrite IH, updateMovingAverage_queue. reflexivity.
Qed.

Lemma slide_lastn (q : list number) (r : number) :
  List.length q <= MOVING_AVERAGE_WINDOW ->
  slide q r = lastn MOVING_AVERAGE_WINDOW (q ++ [r]).
Proof.
  intros Hq. unfold lastn. rewrite length_app. cbn [List.length].
  destruct (slide_cases q r) as [[Hlt ->]|[Hge (x & l & -> & ->)]].
  - replace (List.length q + 1 - MOVING_AVERAGE_WINDOW) with 0
      by (unfold MOVING_AVERAGE_WINDOW in *; lia).
    reflexivity.
  - replace (List.length (x :: l) + 1 - MOVING_AVERAGE_WINDOW) with 1
      by (unfold MOVING_AVERAGE_WINDOW in *; cbn [List.length] in *; lia).
    reflexivity.
Qed.

Lemma lastn_lastn_app {A} (n : nat) (l1 l2 : list A) :
  lastn n (lastn n l1 ++ l2) = lastn n (l1 ++ l2).
Proof.
  unfold lastn. rewrite !length_app, length_skipn.
  destruct (Nat.le_gt_cases (List.length l1) n) as [H|H].
  - replace (List.length l1 - n) with 0 by lia.
    cbn [skipn]. now rewrite Nat.sub_0_r.
  - rewrite !skipn_app, length_skipn, skipn_skipn.
    f_equal; f_equal; lia.
Qed.

Lemma fold_slide_lastn (rs q : list number) :
  List.length q <= MOVING_AVERAGE_WINDOW ->
  fold_left slide rs q = lastn MOVING_AVERAGE_WINDOW (q ++ rs).
Proof.
  revert q. induction rs as [|r rs IH]; intros q Hq.
  - cbn [fold_left]. rewrite app_nil_r. unfold lastn.
    replace (List.length q - MOVING_AVERAGE_WINDOW) with 0 by lia.
    reflexivity.
  - cbn [fold_left]. rewrite IH by now apply slide_length.
    rewrite slide_lastn by exact Hq.
    rewrite lastn_lastn_app, <- app_assoc. reflexivity.
Qed.

(** X9: from any window within the capacity, pushes leave the last
    [MOVING_AVERAGE_WINDOW] entries of the old window followed by the pushed
    ratios; after [MOVING_AVERAGE_WINDOW] pushes or more nothing of the old
    window is left. *)
Theorem window_forgets (rs : list number) (st : Static) :
  List.length (movingAverageQueue st) <= MOVING_AVERAGE_WINDOW ->
  movingAverageQueue (pushes rs st)
    = lastn MOVING_AVERAGE_WINDOW (movingAverageQueue st ++ rs) /\
  (MOVING_AVERAGE_WINDOW <= List.length rs ->
   movingAverageQueue (pushes rs st) = lastn MOVING_AVERAGE_WINDOW rs).
Proof.
  intros Hq.
  assert (E : movingAverageQueue (pushes rs st)
              = lastn MOVING_AVERAGE_WINDOW (movingAverageQueue st ++ rs))
    by (rewrite pushes_queue; now apply fold_slide_lastn).
  split; [exact E|]. intros Hrs. rewrite E.
  unfold lastn. rewrite length_app, skipn_app.
  replace (List.length (movingAverageQueue st) + List.length rs
           - MOVING_AVERAGE_WINDOW - List.length (movingAverageQueue st))
    with (List.length rs - MOVING_AVERAGE_WINDOW) by lia.
  rewrite skipn_all2 by lia. reflexivity.
Qed.

Lemma window_forgets_witness :
  List.length (movingAverageQueue
                 {| movingAverageQueue := [infinity]; console := [] |})
    <= MOVING_AVERAGE_WINDOW /\
  MOVING_AVERAGE_WINDOW <= List.length (repeat 1%float 10) /\
  movingAverageQueue
    (pushes (repeat 1%float 10)
       {| movingAverageQueue := [infinity]; console := [] |})
    = lastn MOVING_AVERAGE_WINDOW (repeat 1%float 10).
Proof.
  split; [cbn; unfold MOVING_AVERAGE_WINDOW; lia|].
  split; [cbn; unfold MOVING_AVERAGE_WINDOW; lia|].
  apply (window_forgets (repeat 1%float 10)
           {| movingAverageQueue := [infinity]; console := [] |});
    cbn; unfold MOVING_AVERAGE_WINDOW; lia.
Defined.

End WindowFromAnyState.

Section ArrayShape.

Local Open Scope nat_scope.

(** X1: on an array with fewer than two quotes [generateRow] throws the
    runtime's [TypeError] before it touches anything: the window and the
    console are as they were. *)
Theorem generateRow_short_array (qs : list ServerRespond) (st : Static) :
  List.length qs < 2 -> generateRow qs st = (Throw TypeError, st).
Proof.
  intros H. destruct qs as [|a [|b rest]]; cbn [List.length] in H;
    try lia; reflexivity.
Qed.

Lemma generateRow_short_array_witness :
  List.length [quote 100 98 5] < 2 /\
  generateRow [quote 100 98 5]
    {| movingAverageQueue := [1.0%float]; console := [] |}
  = (Throw TypeError, {| movingAverageQueue := [1.0%float]; console := [] |}).
Proof.
  split; [cbn; lia|].
  apply (generateRow_short_array [quote 100 98 5]). cbn. lia.
Defined.

(** X2: [generateRow] returns a row exactly when the array holds at least
    two quotes, and it reads the first two only: the outcome and the state
    are those of the call on the first two elements. *)
Theorem generateRow_returns_iff (qs : list ServerRespond) (st : Static) :
  (2 <= List.length qs <->
   exists row st', generateRow qs st = (Return row, st')) /\
  generateRow qs st = generateRow (firstn 2 qs) st.
Proof.
  split.
  - split.
    + intros H. destruct qs as [|a [|b rest]]; cbn [List.length] in H;
        try lia.
      destruct (generateRow_run a b rest st) as (avg & st1 & _ & _ & Hrow).
      eauto.
    + intros (row & st' & H).
      destruct qs as [|a [|b rest]]; try discriminate H.
      cbn [List.length]. lia.
  - destruct qs as [|a [|b rest]]; reflexivity.
Qed.

End ArrayShape.

Section RowAndState.

(** X3: a call that returns a row appends exactly one line to the console,
    ["Generated Signal: "] followed by the text of the very signal the row
    carries ([BUY], [SELL], [HOLD] or [undefined]); the lines logged before
    stay in place. *)
Theorem generateRow_logs_signal (a b : ServerRespond)
    (rest : list ServerRespond) (st : Static) :
  exists row st',
    generateRow (a :: b :: rest) st = (Return row, st') /\
    console st' =
      console st ++
      [("Generated Signal: " ++ show_signal (signal row))%string] /\
    In (show_signal (signal row))
       ["BUY"; "SELL"; "HOLD"; "undefined"]%string.
Proof.
  destruct (generateRow_run a b rest st) as (avg & st1 & Hrun & _ & Hrow).
  eexists. eexists. split; [exact Hrow|]. cbn [console signal].
  destruct (updateMovingAverage_run (midPrice a / midPrice b) st)
    as (x & xs & _ & Hrun').
  rewrite Hrun' in Hrun. injection Hrun as _ <-. cbn [console].
  split; [reflexivity|].
  destruct (generateSignal _ _ _ _) as [[ | | ]|]; cbn; auto.
Qed.

(** X4: the row's [moving_average] is the average of the window as the call
    leaves it: the sum from left to right of its entries over their number.
    That window ends with the row's ratio, and its other entries were in the
    window before. *)
Theorem moving_average_of_new_window (a b : ServerRespond)
    (rest : list ServerRespond) (st : Static) :
  exists row st' x xs,
    generateRow (a :: b :: rest) st = (Return row, st') /\
    movingAverageQueue st' = x :: xs /\
    moving_average row =
      (fold_left PrimFloat.add xs x
       / Number.of_length (List.length (x :: xs)))%float /\
    last (x :: xs) 0%float = ratio row /\
    (forall y, In y (removelast (x :: xs)) -> In y (movingAverageQueue st)).
Proof.
  destruct (generateRow_run a b rest st) as (avg & st1 & Hrun & Hq & Hrow).
  destruct (updateMovingAverage_run (midPrice a / midPrice b) st)
    as (x & xs & E & Hrun').
  rewrite Hrun' in Hrun. injection Hrun as <- <-.
  eexists. eexists. exists x, xs. split; [exact Hrow|].
  cbn [movingAverageQueue moving_average ratio].
  split; [reflexivity|]. split; [reflexivity|]. rewrite <- E.
  destruct (slide_cases (movingAverageQueue st) (midPrice a / midPrice b))
    as [[_ ->]|[_ (o & l & Eq & ->)]].
  - split; [apply last_last|]. intros y. now rewrite removelast_last.
  - split; [apply last_last|]. intros y. rewrite removelast_last, Eq.
    intros H. now right.
Qed.

End RowAndState.

Section SignalsInThePipeline.





(** X6: while a NaN sits in the window a call leaves, be it the new ratio
    or an earlier one not yet evicted, the row's [moving_average] is NaN,
    and since nothing compares with NaN the signal is neither [SELL] nor
    [BUY]. *)
Theorem nan_in_window_blocks_trading (a b : ServerRespond)
    (rest : list ServerRespond) (st st' : Static) (row : Row) (x : number) :
  generateRow (a :: b :: rest) st = (Return row, st') ->
  In x (movingAverageQueue st') ->
  PrimFloat.is_nan x = true ->
  PrimFloat.is_nan (moving_average row) = true /\
  signal row <> Some SELL /\
  signal row <> Some BUY.
Proof.
  intros Hgen Hin Hnan.
  destruct (generateRow_run a b rest st) as (avg & st1 & Hrun & _ & Hrow).
  rewrite Hrow in Hgen. injection Hgen as <- <-.
  cbn [movingAverageQueue moving_average signal] in *.
  destruct (updateMovingAverage_run (midPrice a / midPrice b) st)
    as (y & ys & _ & Hrun').
  rewrite Hrun' in Hrun. injection Hrun as <- <-.
  cbn [movingAverageQueue] in Hin.
  assert (Havg : PrimFloat.is_nan
                   (fold_left PrimFloat.add ys y
                    / Number.of_length (List.length (y :: ys))) = true)
    by (apply NumberLaws.div_nan_l; now apply (NumberLaws.fold_add_nan ys y x)).
  split; [exact Havg|].
  unfold generateSignal, Number.gt, Number.lt.
  rewrite (NumberLaws.ltb_nan_l _ _ Havg), (NumberLaws.ltb_nan_r _ _ Havg).
  rewrite !andb_false_r.
  destruct (_ || _); split; discriminate.
Qed.

Lemma nan_in_window_blocks_trading_witness :
  PrimFloat.is_nan nan = true /\
  PrimFloat.is_nan
    (moving_average
       {| price_abc := 99; price_def := 89;
          ratio := 1.1123595505617978;
          row_timestamp := ValidDate 7;
          upper_bound := 1.05; lower_bound := 0.95;
          trigger_alert := Some 1.1123595505617978%float;
          moving_average := nan;
          signal := Some HOLD |}) = true /\
  Some HOLD <> Some SELL /\
  Some HOLD <> Some BUY.
Proof.
  split; [reflexivity|].
  apply (nan_in_window_blocks_trading
           (quote 100 98 5) (quote 90 88 7) []
           {| movingAverageQueue := [nan]; console := [] |}
           {| movingAverageQueue := [nan; 1.1123595505617978%float];
              console := ["Generated Signal: HOLD"%string] |}
           {| price_abc := 99; price_def := 89;
              ratio := 1.1123595505617978;
              row_timestamp := ValidDate 7;
              upper_bound := 1.05; lower_bound := 0.95;
              trigger_alert := Some 1.1123595505617978%float;
              moving_average := nan;
              signal := Some HOLD |}
           nan).
  - vm_compute. reflexivity.
  - left. reflexivity.
  - reflexivity.
Defined.

(** X7: two quotes with the same finite, non-zero mid-price give the ratio
    1 exactly, which is within the bounds: the row carries neither an alert
    nor a signal, whatever the window holds. *)
Theorem equal_mid_prices_no_alert (a b : ServerRespond)
    (rest : list ServerRespond) (st : Static) (p : number) :
  calculateMidPrice (Some a) = Return p ->
  calculateMidPrice (Some b) = Return p ->
  Number.isFinite p = true ->
  Number.eq p 0 = false ->
  exists row st',
    generateRow (a :: b :: rest) st = (Return row, st') /\
    ratio row = 1%float /\
    trigger_alert row = None /\
    signal row = None.
Proof.
  intros Ha Hb Hf Hz.
  assert (Ea : midPrice a = p) by (now injection Ha).
  assert (Eb : midPrice b = p) by (now injection Hb).
  destruct (generateRow_run a b rest st) as (avg & st1 & _ & _ & Hrow).
  eexists. eexists. split; [exact Hrow|].
  cbn [ratio trigger_alert signal].
  rewrite Ea, Eb, (NumberLaws.div_self p Hf Hz).
  repeat split.
Qed.

Lemma equal_mid_prices_no_alert_witness :
  calculateMidPrice (Some (quote 100 98 5)) = Return 99%float /\
  calculateMidPrice (Some (quote 99.5 98.5 7)) = Return 99%float /\
  exists row st',
    generateRow (quote 100 98 5 :: quote 99.5 98.5 7 :: [])
      {| movingAverageQueue := [1.2%float]; console := [] |}
      = (Return row, st') /\
    ratio row = 1%float /\
    trigger_alert row = None /\
    signal row = None.
Proof.
  split; [reflexivity|]. split; [reflexivity|].
  apply (equal_mid_prices_no_alert (quote 100 98 5) (quote 99.5 98.5 7) []
           {| movingAverageQueue := [1.2%float]; console := [] |} 99%float);
    reflexivity.
Defined.


End SignalsInThePipeline.

Section TimestampsAndMidPrices.

(** X10: when either timestamp is an invalid date the comparison is false
    and the row takes the second quote's timestamp: an invalid date in the
    second quote reaches the row, one in the first quote never does. *)
Theorem row_timestamp_invalid_date (a b : ServerRespond)
    (rest : list ServerRespond) (st : Static) :
  timestamp a = InvalidDate \/ timestamp b = InvalidDate ->
  exists row st',
    generateRow (a :: b :: rest) st = (Return row, st') /\
    row_timestamp row = timestamp b.
Proof.
  intros H.
  destruct (generateRow_run a b rest st) as (avg & st1 & _ & _ & Hrow).
  eexists. eexists. split; [exact Hrow|]. cbn [row_timestamp].
  destruct H as [-> | ->]; [reflexivity|].
  now destruct (timestamp a).
Qed.

Lemma row_timestamp_invalid_date_witness :
  timestamp {| top_ask := {| price := 100 |};
               top_bid := {| price := 98 |};
               timestamp := InvalidDate |} = InvalidDate /\
  exists row st',
    generateRow
      ({| top_ask := {| price := 100 |};
          top_bid := {| price := 98 |};
          timestamp := InvalidDate |} :: quote 90 88 7 :: []) initial
      = (Return row, st') /\
    row_timestamp row = timestamp (quote 90 88 7).
Proof.
  split; [reflexivity|].
  apply (row_timestamp_invalid_date
           {| top_ask := {| price := 100 |};
              top_bid := {| price := 98 |};
              timestamp := InvalidDate |} (quote 90 88 7) [] initial).
  left. reflexivity.
Defined.

(** X11: the mid-price does not depend on which of the two prices is the
    ask and which the bid. *)
Theorem calculateMidPrice_symmetric (x y : number) (t t' : Date) :
  calculateMidPrice
    (Some {| top_ask := {| price := x |};
             top_bid := {| price := y |};
             timestamp := t |}) =
  calculateMidPrice
    (Some {| top_ask := {| price := y |};
             top_bid := {| price := x |};
             timestamp := t' |}).
Proof.
  unfold calculateMidPrice. cbn [price top_ask top_bid].
  now rewrite (NumberLaws.add_comm x y).
Qed.

(** X12: a quote whose ask and bid are the same price [p] has mid-price [p]
    exactly, as long as [p + p] does not overflow. *)
Theorem calculateMidPrice_zero_spread (p : number) (t : Date) :
  Number.isFinite (p + p) = true ->
  calculateMidPrice
    (Some {| top_ask := {| price := p |};
             top_bid := {| price := p |};
             timestamp := t |}) = Return p.
Proof.
  intros H. unfold calculateMidPrice. cbn [price top_ask top_bid].
  now rewrite (NumberLaws.half_double p H).
Qed.

Lemma calculateMidPrice_zero_spread_witness :
  Number.isFinite (0.1 + 0.1) = true /\
  calculateMidPrice (Some (quote 0.1 0.1 5)) = Return 0.1%float.
Proof.
  split; [reflexivity|].
  apply (calculateMidPrice_zero_spread 0.1%float (ValidDate 5)).
  reflexivity.
Defined.

End TimestampsAndMidPrices.

Section Stream.

Local Open Scope nat_scope.

Lemma generateRow_queue (qs : list ServerRespond) (st : Static) :
  movingAverageQueue (snd (generateRow qs st)) =
  fold_left slide (ratios [qs]) (movingAverageQueue st).
Proof.
  destruct qs as [|a [|b rest]]; try reflexivity.
  destruct (generateRow_run a b rest st) as (avg & st1 & _ & Hq & ->).
  cbn [snd movingAverageQueue ratios flat_map app fold_left]. exact Hq.
Qed.

Lemma generateRow_console_length (qs : list ServerRespond) (st : Static) :
  List.length (console (snd (generateRow qs st))) =
  List.length (console st) + List.length (ratios [qs]).
Proof.
  destruct qs as [|a [|b rest]]; try (cbn; lia).
  destruct (generateRow_run a b rest st) as (avg & st1 & Hrun & _ & ->).
  destruct (updateMovingAverage_run (midPrice a / midPrice b) st)
    as (x & xs & _ & Hrun').
  rewrite Hrun' in Hrun. injection Hrun as _ <-.
  cbn [snd console ratios flat_map app]. rewrite length_app. reflexivity.
Qed.

Lemma ratios_cons (qs : list ServerRespond)
    (batches : list (list ServerRespond)) :
  ratios (qs :: batches) = ratios [qs] ++ ratios batches.
Proof. unfold ratios. cbn [flat_map]. now rewrite app_nil_r. Qed.

Lemma process_state (batches : list (list ServerRespond)) (st : Static) :
  movingAverageQueue (process batches st) =
    fold_left slide (ratios batches) (movingAverageQueue st) /\
  List.length (console (process batches st)) =
    List.length (console st) + List.length (ratios batches).
Proof.
  revert st. induction batches as [|qs batches IH]; intros st.
  - cbn. split; [reflexivity|lia].
  - unfold process in *. cbn [fold_left].
    destruct (IH (snd (generateRow qs st))) as [IHq IHc].
    rewrite IHq, IHc, generateRow_queue, generateRow_console_length.
    rewrite (ratios_cons qs batches), fold_left_app, length_app.
    split; [reflexivity|lia].
Qed.

(** X13: after a stream of calls from the start-up state, the window holds
    the last [MOVING_AVERAGE_WINDOW] ratios of the arrays that held a pair,
    in arrival order, and the console one line for each of them; a call on
    a shorter array throws and counts for nothing. *)
Theorem process_window (batches : list (list ServerRespond)) :
  movingAverageQueue (process batches initial)
    = lastn MOVING_AVERAGE_WINDOW (ratios batches) /\
  List.length (console (process batches initial))
    = List.length (ratios batches) /\
  List.length (movingAverageQueue (process batches initial))
    = Nat.min MOVING_AVERAGE_WINDOW (List.length (ratios batches)).
Proof.
  destruct (process_state batches initial) as [Hq Hc].
  assert (E : movingAverageQueue (process batches initial)
              = lastn MOVING_AVERAGE_WINDOW (ratios batches)).
  { rewrite Hq. cbn [initial movingAverageQueue].
    rewrite fold_slide_lastn by (cbn; lia). reflexivity. }
  split; [exact E|]. split; [exact Hc|].
  rewrite E. apply lastn_length.
Qed.

End Stream.

Section NonFiniteEntries.

Lemma not_finite_inv (x : number) :
  Number.isFinite x = false ->
  Prim2SF x = S754_nan \/ exists s, Prim2SF x = S754_infinity s.
Proof.
  rewrite NumberFacts.isFinite_spec.
  destruct (Prim2SF x) as [s|s| |s m e]; try discriminate; eauto.
Qed.

Lemma add_not_finite_l (x y : number) :
  Number.isFinite x = false -> Number.isFinite (x + y) = false.
Proof.
  intros H. rewrite NumberFacts.isFinite_spec, add_spec.
  destruct (not_finite_inv x H) as [-> | [s ->]]; [reflexivity|].
  destruct (Prim2SF y) as [sy|sy| |sy my ey]; try reflexivity.
  destruct s, sy; reflexivity.
Qed.

Lemma add_not_finite_r (x y : number) :
  Number.isFinite y = false -> Number.isFinite (x + y) = false.
Proof.
  intros H. rewrite (NumberLaws.add_comm x y). now apply add_not_finite_l.
Qed.

Lemma div_not_finite_l (x y : number) :
  Number.isFinite x = false -> Number.isFinite (x / y) = false.
Proof.
  intros H. rewrite NumberFacts.isFinite_spec, div_spec.
  destruct (not_finite_inv x H) as [-> | [s ->]]; [reflexivity|].
  destruct (Prim2SF y) as [sy|sy| |sy my ey]; reflexivity.
Qed.

Lemma fold_add_not_finite_acc (l : list number) (acc : number) :
  Number.isFinite acc = false ->
  Number.isFinite (fold_left PrimFloat.add l acc) = false.
Proof.
  revert acc. induction l as [|y l IH]; intros acc H; cbn [fold_left];
    [exact H|].
  apply IH. now apply add_not_finite_l.
Qed.

Lemma fold_add_not_finite (l : list number) (acc x : number) :
  In x (acc :: l) -> Number.isFinite x = false ->
  Number.isFinite (fold_left PrimFloat.add l acc) = false.
Proof.
  revert acc. induction l as [|y l IH]; intros acc Hin Hx.
  - destruct Hin as [->|[]]. exact Hx.
  - cbn [fold_left]. destruct Hin as [->|[->|Hin]].
    + apply fold_add_not_finite_acc. now apply add_not_finite_l.
    + apply fold_add_not_finite_acc. now apply add_not_finite_r.
    + apply IH; [right; exact Hin | exact Hx].
Qed.

(** X14: while an entry that is not finite (an infinity from a zero
    denominator, or a NaN) sits in the window a call leaves, the row's
    [moving_average] is not finite either. *)
Theorem non_finite_entry_spoils_average (a b : ServerRespond)
    (rest : list ServerRespond) (st st' : Static) (row : Row) (x : number) :
  generateRow (a :: b :: rest) st = (Return row, st') ->
  In x (movingAverageQueue st') ->
  Number.isFinite x = false ->
  Number.isFinite (moving_average row) = false.
Proof.
  intros Hgen Hin Hx.
  destruct (generateRow_run a b rest st) as (avg & st1 & Hrun & _ & Hrow).
  rewrite Hrow in Hgen. injection Hgen as <- <-.
  cbn [movingAverageQueue moving_average] in *.
  destruct (updateMovingAverage_run (midPrice a / midPrice b) st)
    as (y & ys & _ & Hrun').
  rewrite Hrun' in Hrun. injection Hrun as <- <-.
  cbn [movingAverageQueue] in Hin.
  apply div_not_finite_l. now apply (fold_add_not_finite ys y x).
Qed.

Lemma non_finite_entry_spoils_average_witness :
  Number.isFinite infinity = false /\
  Number.isFinite
    (moving_average
       {| price_abc := 99; price_def := 89;
          ratio := 1.1123595505617978;
          row_timestamp := ValidDate 7;
          upper_bound := 1.05; lower_bound := 0.95;
          trigger_alert := Some 1.1123595505617978%float;
          moving_average := infinity;
          signal := Some HOLD |}) = false.
Proof.
  split; [reflexivity|].
  apply (non_finite_entry_spoils_average
           (quote 100 98 5) (quote 90 88 7) []
           {| movingAverageQueue := [infinity]; console := [] |}
           {| movingAverageQueue := [infinity; 1.1123595505617978%float];
              console := ["Generated Signal: HOLD"%string] |}
           {| price_abc := 99; price_def := 89;
              ratio := 1.1123595505617978;
              row_timestamp := ValidDate 7;
              upper_bound := 1.05; lower_bound := 0.95;
              trigger_alert := Some 1.1123595505617978%float;
              moving_average := infinity;
              signal := Some HOLD |}
           infinity).
  - vm_compute. reflexivity.
  - left. reflexivity.
  - reflexivity.
Defined.

End NonFiniteEntries.
